(** * CDSK.Lorenz84: the Lorenz-84 vector field on packed multi-orbit states

    Shallow embedding of [src/CDSK/__Lorenz84.py].

    Numbers.  numpy's float64 entries and Python's floats are idealised as the
    real numbers [R] of the Standard Library (the specification's data model
    speaks of real numbers as well); rounding, infinities and NaN are outside
    that model.  Statements are kept to what survives rounding: values at
    exactly representable inputs, signs, bounds, weak monotonicity, shapes,
    exceptions and the store.  [TimeForcing.linear64] is [TimeForcing.linear]
    once more in binary64, the arithmetic the code runs in, and shows where
    rounding decides.

    Arrays.  A one-dimensional [ndarray] is a mutable object: it lives in a
    store, is named by a location, and its contents are a [list R].  Strided
    slices [X[k::3]], numpy's broadcasting rule for element-wise operators and
    for slice assignment, and the exceptions they raise are written out.

    Effects.  [_equation] runs in a small state-and-exception monad over the
    store, which also holds the attributes of [self]. *)

From Stdlib Require Import Reals Lra Lia.
From stdpp Require Import base list strings.
From Corelib Require Import PrimFloat.

Open Scope R_scope.

(** ** Python exceptions raised by the modelled code *)

Inductive exn : Type :=
| TypeError    (* calling [None] *)
| ValueError   (* numpy: operands could not be broadcast together *)
| InvalidRef.  (* no Python counterpart: a location outside the store *)

Definition result (A : Type) : Type := exn + A.

(** ** class TimeForcing *)

Module TimeForcing.

(** [def constant( t ): return 6] *)
Definition constant (t : R) : R := 6.

(** [def cyclic( t ): return 9.5 + 2. * np.sin( t * 2. * np.pi / 73. )] *)
Definition cyclic (t : R) : R := 9.5 + 2 * sin (t * 2 * PI / 73).

(** The default value of the keyword argument [tcc = 100 * 73]. *)
Definition tcc_default : R := 100 * 73.

(** [def linear( t , tcc = 100 * 73 ):
       return 0 if t < tcc else -2 * ( t - tcc ) / tcc]
    [None] for [tcc] stands for a call that leaves the argument out, as every
    call made by the model does.  Division in [R] is total; a call with
    [tcc = 0], where Python's division raises, is not modelled. *)
Definition linear (t : R) (tcc : option R) : R :=
  let tcc := default tcc_default tcc in
  if Rlt_dec t tcc then 0 else -2 * (t - tcc) / tcc.

(** The default [tcc = 100 * 73] as a float: the integer 7300, exactly. *)
Definition tcc_default64 : float := 7300%float.

(** [linear] in binary64, for a float [t]: Python compares [t] with [tcc]
    exactly, converts [tcc] and [-2] to floats for [-] , [*] and [/], and
    evaluates [(-2 * (t - tcc)) / tcc] with one rounding per operation.  The
    integer [0] of the first branch is the float [0]. *)
Definition linear64 (t : float) (tcc : option float) : float :=
  let tcc := default tcc_default64 tcc in
  if PrimFloat.ltb t tcc then 0%float
  else PrimFloat.div (PrimFloat.mul (-2)%float (PrimFloat.sub t tcc)) tcc.

End TimeForcing.

(** ** Python values accepted for the constructor argument [F] *)

Inductive pyval : Type :=
| PyNone                      (* [None], also the default of [F] *)
| PyStr (s : string)          (* [type(F) == str] *)
| PyNum (r : R)               (* any other value that is not callable *)
| PyCallable (f : R -> R).    (* [callable(F)] *)

Definition callable (v : pyval) : bool :=
  match v with PyCallable _ => true | _ => false end.

Definition is_str (v : pyval) : bool :=
  match v with PyStr _ => true | _ => false end.

(** ** numpy values: Python scalars and one-dimensional arrays *)

Inductive npval : Type :=
| Scalar (r : R)
| Array (l : list R).

Module np.

(** [X[start::step]] on the contents of a one-dimensional array: the entries
    at indices [start], [start+step], ... below the length.  [skip] counts the
    entries to pass over before the next one is taken; [step] is at least 1
    (the code uses 3 only). *)
Fixpoint strided (step skip : nat) (l : list R) : list R :=
  match l with
  | [] => []
  | x :: l' =>
      match skip with
      | O => x :: strided step (pred step) l'
      | S k => strided step k l'
      end
  end.

(** The contents of an array after [l[start::step] = vs], for [vs] of the
    length of the slice. *)
Fixpoint assign_strided (step skip : nat) (l vs : list R) : list R :=
  match l with
  | [] => []
  | x :: l' =>
      match skip with
      | O =>
          match vs with
          | v :: vs' => v :: assign_strided step (pred step) l' vs'
          | [] => x :: l'
          end
      | S k => x :: assign_strided step k l' vs
      end
  end.

(** Broadcasting of a binary element-wise operator: a scalar combines with
    every entry; two arrays combine entry by entry when their lengths agree,
    an array of length 1 is stretched to the other's length, and any other
    pair of lengths raises [ValueError]. *)
Definition broadcast (f : R -> R -> R) (u v : npval) : result npval :=
  match u, v with
  | Scalar x, Scalar y => inr (Scalar (f x y))
  | Scalar x, Array ys => inr (Array (map (f x) ys))
  | Array xs, Scalar y => inr (Array (map (fun x => f x y) xs))
  | Array xs, Array ys =>
      if Nat.eqb (length xs) (length ys) then inr (Array (zip_with f xs ys))
      else match xs, ys with
           | [x], _ => inr (Array (map (f x) ys))
           | _, [y] => inr (Array (map (fun x => f x y) xs))
           | _, _ => inl ValueError
           end
  end.

(** Broadcasting of the right-hand side of a slice assignment into a slice of
    [n] entries: a scalar or an array of length 1 fills the slice, an array of
    length [n] is copied, and any other length raises [ValueError]. *)
Definition fit (n : nat) (v : npval) : result (list R) :=
  match v with
  | Scalar x => inr (replicate n x)
  | Array vs =>
      if Nat.eqb (length vs) n then inr vs
      else match vs with
           | [x] => inr (replicate n x)
           | _ => inl ValueError
           end
  end.

(** Element-wise unary operators. *)
Definition elementwise (f : R -> R) (u : npval) : npval :=
  match u with
  | Scalar x => Scalar (f x)
  | Array xs => Array (map f xs)
  end.

End np.

(** ** class Lorenz84 *)

(** The attributes of a [Lorenz84] object.

    Modelled from the spec: the base class [DiffDynSyst] is not part of the
    sources; its constructor, called as
    [DiffDynSyst.__init__( self , 3 , size , bounds )], is taken to store its
    three arguments as the state dimension, the orbit count N and the bounds
    box. *)
Record Lorenz84 : Type := {
  dim : nat;
  size : nat;
  bounds : list (list Z);
  a : R;
  b : R;
  G : R;
  F : option (R -> R)
}.

Definition default_a : R := 0.25.
Definition default_b : R := 4.
Definition default_G : R := 1.

(** [def __init__( self , a = 0.25 , b = 4. , G = 1. , F = None , size = 1 )]
    [self.F] starts at [None]; the branch [callable(F)] stores [F], the branch
    [type(F) == str] stores a forcing for each of the three tokens and nothing
    for any other string, and the [else] branch stores
    [TimeForcing.constant]. *)
Definition __init__ (a b G : R) (F : pyval) (size : nat) : Lorenz84 :=
  {| dim := 3;
     size := size;
     bounds := [[-1; -3; -3]; [3; 3; 3]]%Z;
     a := a;
     b := b;
     G := G;
     F :=
       match F with
       | PyCallable f => Some f
       | PyStr s =>
           if String.eqb s "cyclic" then Some TimeForcing.cyclic
           else if String.eqb s "linear" then
             Some (fun t => TimeForcing.linear t None)
           else if String.eqb s "cyclic-linear" then
             Some (fun t => TimeForcing.cyclic t + TimeForcing.linear t None)
           else None
       | _ => Some TimeForcing.constant
       end |}.

(** ** The store and the monad of state and exceptions *)

(** Arrays are named by their index in the store; [np.zeros] allocates at the
    end, so a new location is one that no existing array has. *)
Definition loc : Type := nat.

Record state : Type := {
  attrs : Lorenz84;          (* the attributes of [self] *)
  arrays : list (list R)     (* the contents of every live [ndarray] *)
}.

Definition M (A : Type) : Type := state -> state * result A.

Definition ret {A} (x : A) : M A := fun s => (s, inr x).

Definition raise {A} (e : exn) : M A := fun s => (s, inl e).

Definition bind {A B} (c : M A) (k : A -> M B) : M B :=
  fun s =>
    match c s with
    | (s', inr x) => k x s'
    | (s', inl e) => (s', inl e)
    end.

Definition lift {A} (r : result A) : M A := fun s => (s, r).

Declare Scope py_scope.
Delimit Scope py_scope with py.

Notation "x <- c ;; k" := (bind c (fun x => k))
  (at level 100, c at next level, right associativity) : py_scope.
Notation "c ;; k" := (bind c (fun _ => k))
  (at level 100, right associativity) : py_scope.

(** [self.attr] *)
Definition getattr (p : Lorenz84 -> R) : M npval :=
  fun s => ret (Scalar (p (attrs s))) s.

(** [self.F(t)]; calling [None] raises [TypeError]. *)
Definition call_F (t : R) : M npval :=
  fun s =>
    match F (attrs s) with
    | Some f => ret (Scalar (f t)) s
    | None => raise TypeError s
    end.

(** [X.shape], for a one-dimensional array its length. *)
Definition shape (X : loc) : M nat :=
  fun s =>
    match arrays s !! X with
    | Some xs => ret (length xs) s
    | None => raise InvalidRef s
    end.

(** [np.zeros(n)]: a new array of [n] zeros. *)
Definition zeros (n : nat) : M loc :=
  fun s =>
    ({| attrs := attrs s; arrays := arrays s ++ [replicate n 0] |},
     inr (length (arrays s))).

(** [X[start::3]] read as a value.  numpy returns a view of [X]; nothing
    writes to [X] while the view is alive, so its contents at the time of the
    read are what the operators see. *)
Definition getitem (X : loc) (start : nat) : M npval :=
  fun s =>
    match arrays s !! X with
    | Some xs => ret (Array (np.strided 3 start xs)) s
    | None => raise InvalidRef s
    end.

(** [dX[start::3] = v]: writes into the array at [dX] in place. *)
Definition setitem (dX : loc) (start : nat) (v : npval) : M unit :=
  fun s =>
    match arrays s !! dX with
    | Some ds =>
        match np.fit (length (np.strided 3 start ds)) v with
        | inr vs =>
            ({| attrs := attrs s;
                arrays := <[dX := np.assign_strided 3 start ds vs]> (arrays s) |},
             inr tt)
        | inl e => raise e s
        end
    | None => raise InvalidRef s
    end.

(** Python evaluates the left operand, then the right one, then applies the
    operator; the results of operators are new temporaries, kept as values. *)
Definition binop (f : R -> R -> R) (e1 e2 : M npval) : M npval :=
  (u <- e1 ;; v <- e2 ;; lift (np.broadcast f u v))%py.

Definition unop (f : R -> R) (e : M npval) : M npval :=
  (u <- e ;; ret (np.elementwise f u))%py.

Notation "e1 .+ e2" := (binop Rplus e1 e2)
  (at level 50, left associativity) : py_scope.
Notation "e1 .- e2" := (binop Rminus e1 e2)
  (at level 50, left associativity) : py_scope.
Notation "e1 .* e2" := (binop Rmult e1 e2)
  (at level 40, left associativity) : py_scope.
Notation ".- e" := (unop Ropp e) (at level 35, right associativity) : py_scope.
Notation "e .**2" := (unop (fun x => x ^ 2) e) (at level 1) : py_scope.
Notation "X .[ k ::3]" := (getitem X k)
  (at level 1, k at level 0, format "X .[ k ::3]") : py_scope.

(** [dX[start::3] = e]: the right-hand side is evaluated first. *)
Definition assign (dX : loc) (start : nat) (e : M npval) : M unit :=
  (v <- e ;; setitem dX start v)%py.

(** [def _equation( self , X , t )] *)
Definition _equation (X : loc) (t : R) : M loc :=
  (n <- shape X ;;
   dX <- zeros n ;;
   assign dX 0 (.- X.[1::3] .**2 .- X.[2::3] .**2 .- getattr a .* X.[0::3]
                .+ getattr a .* call_F t) ;;
   assign dX 1 (X.[0::3] .* X.[1::3] .- getattr b .* X.[0::3] .* X.[2::3]
                .- X.[1::3] .+ getattr G) ;;
   assign dX 2 (X.[0::3] .* X.[2::3] .+ getattr b .* X.[0::3] .* X.[1::3]
                .- X.[2::3]) ;;
   ret dX)%py.

(** ** Definitions used to state and prove the properties *)

(** The three equations of the model applied to every orbit of a packed
    state, orbit by orbit; [ft] is the value of the forcing.  This is the
    per-orbit reading of the derivative, against which the strided evaluation
    of [_equation] is compared. *)
Fixpoint orbitwise (m : Lorenz84) (ft : R) (l : list R) : list R :=
  match l with
  | x :: y :: z :: l' =>
      (- y ^ 2 - z ^ 2 - a m * x + a m * ft)
        :: (x * y - b m * x * z - y + G m)
        :: (x * z + b m * x * y - z)
        :: orbitwise m ft l'
  | _ => []
  end.

(** [evals e s v]: the expression [e] evaluates in [s] to [v] and leaves the
    store as it is. *)
Definition evals (e : M npval) (s : state) (v : npval) : Prop :=
  e s = (s, inr v).

(** [fails e s err]: the expression [e] raises [err] in [s] and leaves the
    store as it is. *)
Definition fails (e : M npval) (s : state) (err : exn) : Prop :=
  e s = (s, inl err).

(** An expression that never changes the store, whatever its outcome. *)
Definition stateless (e : M npval) : Prop := forall s, (e s).1 = s.

(** The store [s] with one more array, of contents [ds], at the end. *)
Definition snoc_array (s : state) (ds : list R) : state :=
  {| attrs := attrs s; arrays := arrays s ++ [ds] |}.

(** [extends s s']: [s'] has the attributes of [s] and all its arrays, each at
    its location and with its contents, and possibly more arrays after them. *)
Definition extends (s s' : state) : Prop :=
  attrs s' = attrs s /\ exists tl, arrays s' = arrays s ++ tl.

(** The values of the three right-hand sides of [_equation] on a state whose
    slices have equal lengths. *)
Section Slices.
Variables (m : Lorenz84) (ft : R) (xs : list R).
Let X0 := np.strided 3 0 xs.
Let X1 := np.strided 3 1 xs.
Let X2 := np.strided 3 2 xs.

Definition rhs_x : list R :=
  map (fun v => v + a m * ft)
    (zip_with Rminus
       (zip_with Rminus (map Ropp (map (fun x => x ^ 2) X1))
                        (map (fun x => x ^ 2) X2))
       (map (Rmult (a m)) X0)).

Definition rhs_y : list R :=
  map (fun v => v + G m)
    (zip_with Rminus
       (zip_with Rminus (zip_with Rmult X0 X1)
                        (zip_with Rmult (map (Rmult (b m)) X0) X2))
       X1).

Definition rhs_z : list R :=
  zip_with Rminus
    (zip_with Rplus (zip_with Rmult X0 X2)
                    (zip_with Rmult (map (Rmult (b m)) X0) X1))
    X2.
End Slices.

(** The right-hand sides of the three slice assignments of [_equation], as
    written there, under names. *)
Definition expr_x (X : loc) (t : R) : M npval :=
  (.- X.[1::3] .**2 .- X.[2::3] .**2 .- getattr a .* X.[0::3]
   .+ getattr a .* call_F t)%py.

Definition expr_y (X : loc) : M npval :=
  (X.[0::3] .* X.[1::3] .- getattr b .* X.[0::3] .* X.[2::3]
   .- X.[1::3] .+ getattr G)%py.

Definition expr_z (X : loc) : M npval :=
  (X.[0::3] .* X.[2::3] .+ getattr b .* X.[0::3] .* X.[1::3]
   .- X.[2::3])%py.

(** The contents of the array that a call returned, or the exception that it
    raised. *)
Definition output (r : state * result loc) : result (list R) :=
  match r with
  | (s', inr dX) =>
      match arrays s' !! dX with
      | Some ds => inr ds
      | None => inl InvalidRef
      end
  | (_, inl err) => inl err
  end.

(** A computation that keeps every store that extends [s0] an extension of
    [s0]. *)
Definition preserves {A} (s0 : state) (c : M A) : Prop :=
  forall s, extends s0 s -> extends s0 (c s).1.

(** Concrete inputs: the model with every argument at its default, and a
    store that holds one array, at location 0. *)
Definition default_model : Lorenz84 :=
  __init__ default_a default_b default_G PyNone 1.

Definition store_of (m : Lorenz84) (xs : list R) : state :=
  {| attrs := m; arrays := [xs] |}.

(** [allocated_one s0 n s]: [s] has the attributes of [s0] and its arrays,
    followed by exactly one more array, of length [n]. *)
Definition allocated_one (s0 : state) (n : nat) (s : state) : Prop :=
  attrs s = attrs s0 /\
  exists ds, arrays s = arrays s0 ++ [ds] /\ length ds = n.

(** * Properties *)

(** ** Strided slices *)

Example strided_from_0 : np.strided 3 0 [1; 2; 3; 4; 5; 6; 7] = [1; 4; 7].
Proof. reflexivity. Qed.

Example strided_from_1 : np.strided 3 1 [1; 2; 3; 4; 5; 6; 7] = [2; 5].
Proof. reflexivity. Qed.

Example strided_from_2 : np.strided 3 2 [1; 2; 3; 4; 5; 6; 7] = [3; 6].
Proof. reflexivity. Qed.

Example assign_strided_from_1 :
  np.assign_strided 3 1 [0; 0; 0; 0; 0; 0] [8; 9] = [0; 8; 0; 0; 9; 0].
Proof. reflexivity. Qed.

Lemma strided_cons3 (k : nat) (x y z : R) (l : list R) :
  (k <= 2)%nat ->
  np.strided 3 k (x :: y :: z :: l) = nth k [x; y; z] 0 :: np.strided 3 k l.
Proof. intros Hk. destruct k as [|[|[|k]]]; try lia; reflexivity. Qed.

Lemma strided_length (q r k : nat) (l : list R) :
  length l = (3 * q + r)%nat -> (r < 3)%nat -> (k <= 2)%nat ->
  length (np.strided 3 k l) = (q + (if (k <? r)%nat then 1 else 0))%nat.
Proof.
  revert l. induction q as [|q IH]; intros l Hl Hr Hk.
  - destruct l as [|x [|y [|z l]]]; cbn in Hl; try lia;
      destruct k as [|[|[|k]]]; try lia;
      destruct r as [|[|[|r]]]; try lia; reflexivity.
  - destruct l as [|x [|y [|z l]]]; cbn in Hl; try lia.
    rewrite strided_cons3 by lia. cbn [length].
    rewrite (IH l) by lia. lia.
Qed.

Lemma strided_length_3q (q k : nat) (l : list R) :
  length l = (3 * q)%nat -> (k <= 2)%nat -> length (np.strided 3 k l) = q.
Proof.
  intros Hl Hk. rewrite (strided_length q 0 k l) by lia.
  destruct (k <? 0)%nat eqn:E; [apply Nat.ltb_lt in E|]; lia.
Qed.

Lemma assign_strided_length step k (l vs : list R) :
  length (np.assign_strided step k l vs) = length l.
Proof.
  revert k vs. induction l as [|x l IH]; intros k vs; [reflexivity|].
  destruct k; cbn; [destruct vs; cbn|]; rewrite ?IH; reflexivity.
Qed.

Ltac lengths q :=
  repeat first [ rewrite length_map | rewrite length_zip_with
               | rewrite length_replicate | rewrite assign_strided_length
               | rewrite (strided_length_3q q)
                   by (rewrite ?assign_strided_length, ?length_replicate;
                       (assumption || lia)) ];
  try lia.

(** ** Broadcasting *)

Example broadcast_stretches_length_1 :
  np.broadcast Rplus (Array [1]) (Array [2; 3]) = inr (Array [1 + 2; 1 + 3]).
Proof. reflexivity. Qed.

Example broadcast_refuses_2_and_3 :
  np.broadcast Rplus (Array [1; 2]) (Array [1; 2; 3]) = inl ValueError.
Proof. reflexivity. Qed.

Example fit_refuses_2_into_1 : np.fit 1 (Array [1; 2]) = inl ValueError.
Proof. reflexivity. Qed.

Lemma broadcast_same_length f (xs ys : list R) :
  length xs = length ys ->
  np.broadcast f (Array xs) (Array ys) = inr (Array (zip_with f xs ys)).
Proof. intros H. cbn. rewrite H, Nat.eqb_refl. reflexivity. Qed.

Lemma broadcast_mismatch f (xs ys : list R) :
  length xs <> length ys -> length xs <> 1%nat -> length ys <> 1%nat ->
  np.broadcast f (Array xs) (Array ys) = inl ValueError.
Proof.
  intros Hne Hx Hy. cbn.
  destruct (Nat.eqb_spec (length xs) (length ys)) as [E|_]; [contradiction|].
  destruct xs as [|x [|x' xs]]; destruct ys as [|y [|y' ys]];
    cbn in *; congruence.
Qed.

Lemma fit_same_length n vs : length vs = n -> np.fit n (Array vs) = inr vs.
Proof. intros <-. cbn. rewrite Nat.eqb_refl. reflexivity. Qed.

Lemma fit_mismatch n vs :
  length vs <> n -> length vs <> 1%nat -> np.fit n (Array vs) = inl ValueError.
Proof.
  intros Hne H1. cbn.
  destruct (Nat.eqb_spec (length vs) n) as [E|_]; [contradiction|].
  destruct vs as [|v [|v' vs]]; cbn in *; congruence.
Qed.

(** ** Evaluation of expressions *)

Lemma evals_getitem s X xs k :
  arrays s !! X = Some xs -> evals (getitem X k) s (Array (np.strided 3 k xs)).
Proof. intros HX. unfold evals, getitem. rewrite HX. reflexivity. Qed.

Lemma evals_getattr s p : evals (getattr p) s (Scalar (p (attrs s))).
Proof. reflexivity. Qed.

Lemma evals_call_F s f t :
  F (attrs s) = Some f -> evals (call_F t) s (Scalar (f t)).
Proof. intros HF. unfold evals, call_F. rewrite HF. reflexivity. Qed.

Lemma fails_call_F s t : F (attrs s) = None -> fails (call_F t) s TypeError.
Proof. intros HF. unfold fails, call_F. rewrite HF. reflexivity. Qed.

Lemma evals_unop s g e u :
  evals e s u -> evals (unop g e) s (np.elementwise g u).
Proof. unfold evals, unop, bind, ret. intros ->. reflexivity. Qed.

Lemma evals_binop s g e1 e2 u v w :
  evals e1 s u -> evals e2 s v -> np.broadcast g u v = inr w ->
  evals (binop g e1 e2) s w.
Proof. unfold evals, binop, bind, lift. intros -> -> ->. reflexivity. Qed.

Lemma fails_binop s g e1 e2 u v err :
  evals e1 s u -> evals e2 s v -> np.broadcast g u v = inl err ->
  fails (binop g e1 e2) s err.
Proof. unfold evals, fails, binop, bind, lift. intros -> -> ->. reflexivity. Qed.

Lemma fails_binop_l s g e1 e2 err :
  fails e1 s err -> fails (binop g e1 e2) s err.
Proof. unfold fails, binop, bind. intros ->. reflexivity. Qed.

Lemma fails_binop_r s g e1 e2 u err :
  evals e1 s u -> fails e2 s err -> fails (binop g e1 e2) s err.
Proof. unfold evals, fails, binop, bind. intros -> ->. reflexivity. Qed.

Ltac eval_expr :=
  repeat first
    [ eapply evals_binop | eapply evals_unop
    | eapply evals_getitem;
      first [ eassumption | apply lookup_app_l_Some; eassumption ]
    | eapply evals_getattr | eapply evals_call_F; eassumption ];
  cbn [np.elementwise].

(** Expressions leave the store alone, also when they raise. *)

Lemma stateless_getitem X k : stateless (getitem X k).
Proof. intros s. unfold getitem. destruct (arrays s !! X); reflexivity. Qed.

Lemma stateless_getattr p : stateless (getattr p).
Proof. intros s. reflexivity. Qed.

Lemma stateless_call_F t : stateless (call_F t).
Proof. intros s. unfold call_F. destruct (F (attrs s)); reflexivity. Qed.

Lemma stateless_unop g e : stateless e -> stateless (unop g e).
Proof.
  intros He s. unfold unop, bind, ret. specialize (He s).
  destruct (e s) as [s' [err|u]]; exact He.
Qed.

Lemma stateless_binop g e1 e2 :
  stateless e1 -> stateless e2 -> stateless (binop g e1 e2).
Proof.
  intros H1 H2 s. unfold binop, bind, lift. specialize (H1 s).
  destruct (e1 s) as [s1 [err|u]]; [exact H1|]. cbn in H1. subst s1.
  specialize (H2 s). destruct (e2 s) as [s2 [err|v]]; exact H2.
Qed.

Ltac stateless_expr :=
  repeat first
    [ apply stateless_binop | apply stateless_unop | apply stateless_getitem
    | apply stateless_getattr | apply stateless_call_F ].

Lemma stateless_expr_x X t : stateless (expr_x X t).
Proof. unfold expr_x. stateless_expr. Qed.

Lemma stateless_expr_y X : stateless (expr_y X).
Proof. unfold expr_y. stateless_expr. Qed.

Lemma stateless_expr_z X : stateless (expr_z X).
Proof. unfold expr_z. stateless_expr. Qed.

(** The right-hand sides on a state whose length is a multiple of 3. *)
Section GoodShape.
Variables (s : state) (X : loc) (xs : list R) (f : R -> R) (t : R) (q : nat).
Hypothesis HX : arrays s !! X = Some xs.
Hypothesis HF : F (attrs s) = Some f.
Hypothesis Hq : length xs = (3 * q)%nat.

Lemma evals_expr_x :
  evals (expr_x X t) s (Array (rhs_x (attrs s) (f t) xs)).
Proof.
  unfold expr_x, rhs_x. eval_expr;
    first [ reflexivity | apply broadcast_same_length; lengths q ].
Qed.

Lemma evals_expr_y : evals (expr_y X) s (Array (rhs_y (attrs s) xs)).
Proof.
  unfold expr_y, rhs_y. eval_expr;
    first [ reflexivity | apply broadcast_same_length; lengths q ].
Qed.

Lemma evals_expr_z : evals (expr_z X) s (Array (rhs_z (attrs s) xs)).
Proof.
  unfold expr_z, rhs_z. eval_expr;
    first [ reflexivity | apply broadcast_same_length; lengths q ].
Qed.
End GoodShape.

(** ** Statements *)

(** [_equation] with its three right-hand sides under their names. *)
Lemma _equation_unfold X t :
  _equation X t
  = (n <- shape X ;;
     dX <- zeros n ;;
     assign dX 0 (expr_x X t) ;;
     assign dX 1 (expr_y X) ;;
     assign dX 2 (expr_z X) ;;
     ret dX)%py.
Proof. reflexivity. Qed.

Lemma shape_run s X xs :
  arrays s !! X = Some xs -> shape X s = (s, inr (length xs)).
Proof. intros HX. unfold shape. rewrite HX. reflexivity. Qed.

Lemma shape_raises s X :
  arrays s !! X = None -> shape X s = (s, inl InvalidRef).
Proof. intros HX. unfold shape. rewrite HX. reflexivity. Qed.

Lemma zeros_run s n :
  zeros n s = (snoc_array s (replicate n 0), inr (length (arrays s))).
Proof. reflexivity. Qed.

Lemma lookup_snoc_array s ds X xs :
  arrays s !! X = Some xs -> arrays (snoc_array s ds) !! X = Some xs.
Proof. intros HX. apply lookup_app_l_Some, HX. Qed.

(** A slice assignment into the array allocated last, followed by the rest of
    the function. *)
Section Assign.
Context {A : Type}.
Variables (s : state) (ds : list R) (k : nat) (e : M npval) (K : M A).

Lemma assign_then v vs :
  evals e (snoc_array s ds) v ->
  np.fit (length (np.strided 3 k ds)) v = inr vs ->
  (assign (length (arrays s)) k e ;; K)%py (snoc_array s ds)
  = K (snoc_array s (np.assign_strided 3 k ds vs)).
Proof.
  unfold evals, assign, bind, setitem. intros -> Hfit.
  cbn [arrays snoc_array attrs].
  rewrite list_lookup_middle by reflexivity. rewrite Hfit.
  replace (length (arrays s)) with (length (arrays s) + 0)%nat at 1 by lia.
  rewrite insert_app_r. reflexivity.
Qed.

Lemma assign_raises_fit v err :
  evals e (snoc_array s ds) v ->
  np.fit (length (np.strided 3 k ds)) v = inl err ->
  (assign (length (arrays s)) k e ;; K)%py (snoc_array s ds)
  = (snoc_array s ds, inl err).
Proof.
  unfold evals, assign, bind, setitem. intros -> Hfit.
  cbn [arrays snoc_array attrs].
  rewrite list_lookup_middle by reflexivity. rewrite Hfit. reflexivity.
Qed.

Lemma assign_raises_rhs err :
  fails e (snoc_array s ds) err ->
  (assign (length (arrays s)) k e ;; K)%py (snoc_array s ds)
  = (snoc_array s ds, inl err).
Proof. unfold fails, assign, bind. intros ->. reflexivity. Qed.
End Assign.

Lemma assemble_orbitwise m ft q : forall xs,
  length xs = (3 * q)%nat ->
  np.assign_strided 3 2
    (np.assign_strided 3 1
       (np.assign_strided 3 0 (replicate (length xs) 0) (rhs_x m ft xs))
       (rhs_y m xs))
    (rhs_z m xs)
  = orbitwise m ft xs.
Proof.
  induction q as [|q IH]; intros xs Hl.
  - destruct xs; [reflexivity | discriminate].
  - destruct xs as [|x [|y [|z xs]]]; cbn in Hl; try lia.
    cbn [orbitwise]. rewrite <- (IH xs) by lia. reflexivity.
Qed.

(** On a packed state whose length is a multiple of 3 and with a forcing
    function in place, [_equation] allocates one array, fills it with the
    orbit-by-orbit derivative and returns its location. *)
Lemma _equation_run s X xs f t q :
  arrays s !! X = Some xs -> F (attrs s) = Some f -> length xs = (3 * q)%nat ->
  _equation X t s
  = (snoc_array s (orbitwise (attrs s) (f t) xs), inr (length (arrays s))).
Proof.
  intros HX HF Hq. unfold _equation.
  unfold bind at 1. rewrite (shape_run s X xs HX).
  unfold bind at 1. rewrite zeros_run.
  erewrite assign_then;
    [ | eapply evals_expr_x; [apply lookup_snoc_array, HX | exact HF | exact Hq]
      | apply fit_same_length; unfold rhs_x; lengths q ].
  erewrite assign_then;
    [ | eapply evals_expr_y; [apply lookup_snoc_array, HX | exact Hq]
      | apply fit_same_length; unfold rhs_y; lengths q ].
  erewrite assign_then;
    [ | eapply evals_expr_z; [apply lookup_snoc_array, HX | exact Hq]
      | apply fit_same_length; unfold rhs_z; lengths q ].
  cbn [attrs snoc_array]. rewrite (assemble_orbitwise _ _ q) by exact Hq.
  reflexivity.
Qed.

(** ** The orbit-by-orbit derivative *)

Lemma orbitwise_length m ft q : forall xs,
  length xs = (3 * q)%nat -> length (orbitwise m ft xs) = length xs.
Proof.
  induction q as [|q IH]; intros xs Hl.
  - destruct xs; [reflexivity | discriminate].
  - destruct xs as [|x [|y [|z xs]]]; cbn in Hl; try lia.
    cbn [orbitwise length]. rewrite (IH xs) by lia. reflexivity.
Qed.

Lemma orbitwise_lookup m ft : forall (i : nat) (xs : list R) (x y z : R),
  xs !! (3 * i)%nat = Some x ->
  xs !! (3 * i + 1)%nat = Some y ->
  xs !! (3 * i + 2)%nat = Some z ->
  orbitwise m ft xs !! (3 * i)%nat = Some (- y ^ 2 - z ^ 2 - a m * x + a m * ft)
  /\ orbitwise m ft xs !! (3 * i + 1)%nat = Some (x * y - b m * x * z - y + G m)
  /\ orbitwise m ft xs !! (3 * i + 2)%nat = Some (x * z + b m * x * y - z).
Proof.
  induction i as [|i IH]; intros xs x y z Hx Hy Hz.
  - destruct xs as [|x' [|y' [|z' xs]]]; cbn in Hx, Hy, Hz; try discriminate.
    injection Hx as ->. injection Hy as ->. injection Hz as ->.
    cbn. repeat split; reflexivity.
  - replace (3 * S i)%nat with (S (S (S (3 * i)))) in * by lia.
    destruct xs as [|x' [|y' [|z' xs]]]; cbn in Hx, Hy, Hz; try discriminate.
    cbn [orbitwise]. cbn. apply IH; assumption.
Qed.

(** ** States whose length is not a multiple of 3 *)

Ltac start_equation HX :=
  unfold _equation;
  unfold bind at 1; rewrite (shape_run _ _ _ HX);
  unfold bind at 1; rewrite zeros_run.

Section BadShape.
Variables (s : state) (X : loc) (f : R -> R) (t : R).
Hypothesis HF : F (attrs s) = Some f.

Lemma _equation_length_1 x :
  arrays s !! X = Some [x] -> (_equation X t s).2 = inl ValueError.
Proof.
  intros HX. start_equation HX.
  erewrite assign_raises_fit; [reflexivity | | ].
  - eval_expr; reflexivity.
  - reflexivity.
Qed.

Lemma _equation_length_2 x y :
  arrays s !! X = Some [x; y] -> (_equation X t s).2 = inl ValueError.
Proof.
  intros HX. start_equation HX.
  erewrite assign_raises_fit; [reflexivity | | ].
  - eval_expr; reflexivity.
  - reflexivity.
Qed.

Lemma _equation_length_4 x y z x' :
  arrays s !! X = Some [x; y; z; x'] -> (_equation X t s).2 = inl ValueError.
Proof.
  intros HX. start_equation HX.
  erewrite assign_then; [ | eval_expr; reflexivity | reflexivity ].
  erewrite assign_raises_fit; [reflexivity | | ].
  - eval_expr; reflexivity.
  - reflexivity.
Qed.

Lemma _equation_length_5 x y z x' y' :
  arrays s !! X = Some [x; y; z; x'; y'] ->
  (_equation X t s).2 = inl ValueError.
Proof.
  intros HX. start_equation HX.
  erewrite assign_then; [ | eval_expr; reflexivity | reflexivity ].
  erewrite assign_then; [ | eval_expr; reflexivity | reflexivity ].
  erewrite assign_raises_fit; [reflexivity | | ].
  - eval_expr; reflexivity.
  - reflexivity.
Qed.

(** From two orbits on, a length that is not a multiple of 3 makes the
    first right-hand side combine slices of lengths [q] and [q+1]. *)
Lemma _equation_length_3q1 xs q :
  arrays s !! X = Some xs -> length xs = (3 * q + 1)%nat -> (2 <= q)%nat ->
  (_equation X t s).2 = inl ValueError.
Proof.
  intros HX Hl Hq. start_equation HX.
  erewrite assign_raises_rhs; [reflexivity|].
  apply fails_binop_l. eapply fails_binop.
  - eval_expr. apply broadcast_same_length.
    rewrite !length_map, !(strided_length q 1) by lia. reflexivity.
  - eval_expr. reflexivity.
  - apply broadcast_mismatch;
      rewrite ?length_zip_with, ?length_map, !(strided_length q 1) by lia;
      cbn; lia.
Qed.

Lemma _equation_length_3q2 xs q :
  arrays s !! X = Some xs -> length xs = (3 * q + 2)%nat -> (2 <= q)%nat ->
  (_equation X t s).2 = inl ValueError.
Proof.
  intros HX Hl Hq. start_equation HX.
  erewrite assign_raises_rhs; [reflexivity|].
  do 2 apply fails_binop_l. eapply fails_binop.
  - eval_expr.
  - eval_expr.
  - apply broadcast_mismatch;
      rewrite ?length_map, !(strided_length q 2) by lia; cbn; lia.
Qed.

Lemma _equation_bad_length xs :
  arrays s !! X = Some xs -> (length xs mod 3 <> 0)%nat ->
  (_equation X t s).2 = inl ValueError.
Proof.
  intros HX Hmod.
  pose proof (Nat.div_mod_eq (length xs) 3) as Hdiv.
  pose proof (Nat.mod_upper_bound (length xs) 3 ltac:(lia)) as Hr.
  set (q := (length xs / 3)%nat) in *. set (r := (length xs mod 3)%nat) in *.
  destruct (le_lt_dec 2 q) as [Hq|Hq].
  - assert (r = 1 \/ r = 2)%nat as [E|E] by lia.
    + apply (_equation_length_3q1 xs q); [exact HX | lia | exact Hq].
    + apply (_equation_length_3q2 xs q); [exact HX | lia | exact Hq].
  - destruct xs as [|x0 [|x1 [|x2 [|x3 [|x4 [|x5 xs]]]]]];
      cbn [length] in Hdiv; try lia.
    + apply (_equation_length_1 _ HX).
    + apply (_equation_length_2 _ _ HX).
    + apply (_equation_length_4 _ _ _ _ HX).
    + apply (_equation_length_5 _ _ _ _ _ HX).
Qed.
End BadShape.

(** ** The store after a call *)

Lemma extends_refl s : extends s s.
Proof. split; [reflexivity|]. exists []. symmetry. apply app_nil_r. Qed.

Lemma extends_snoc_array s ds : extends s (snoc_array s ds).
Proof. split; [reflexivity|]. exists [ds]. reflexivity. Qed.

Lemma extends_lookup s s' l ds :
  extends s s' -> arrays s !! l = Some ds -> arrays s' !! l = Some ds.
Proof. intros [_ [tl ->]] Hl. apply lookup_app_l_Some, Hl. Qed.

Lemma preserves_ret {A} s0 (x : A) : preserves s0 (ret x).
Proof. intros s Hs. exact Hs. Qed.

Lemma preserves_bind {A B} s0 (c : M A) (k : A -> M B) :
  preserves s0 c -> (forall x, preserves s0 (k x)) -> preserves s0 (bind c k).
Proof.
  intros Hc Hk s Hs. unfold bind. specialize (Hc s Hs).
  destruct (c s) as [s1 [err|x]]; [exact Hc|]. apply Hk, Hc.
Qed.

Lemma preserves_setitem s0 (dX : loc) k v :
  (length (arrays s0) <= dX)%nat -> preserves s0 (setitem dX k v).
Proof.
  intros Hd s [Ha [tl Htl]]. unfold setitem.
  destruct (arrays s !! dX) as [ds|]; [|split; eauto].
  destruct (np.fit (length (np.strided 3 k ds)) v) as [err|vs]; [split; eauto|].
  split; [exact Ha|]. cbn [arrays fst]. rewrite Htl.
  rewrite insert_app_r_alt by exact Hd. eauto.
Qed.

Lemma preserves_assign s0 (dX : loc) k e :
  stateless e -> (length (arrays s0) <= dX)%nat -> preserves s0 (assign dX k e).
Proof.
  intros He Hd. unfold assign. apply preserves_bind.
  - intros s Hs. rewrite He. exact Hs.
  - intros v. apply preserves_setitem, Hd.
Qed.

Lemma preserves_assignments s0 X t (dX : loc) :
  (length (arrays s0) <= dX)%nat ->
  preserves s0 (assign dX 0 (expr_x X t) ;;
                assign dX 1 (expr_y X) ;;
                assign dX 2 (expr_z X) ;;
                ret dX)%py.
Proof.
  intros Hd.
  repeat (apply preserves_bind;
          [ apply preserves_assign;
            [ first [ apply stateless_expr_x | apply stateless_expr_y
                    | apply stateless_expr_z ] | exact Hd ]
          | intros _ ]).
  apply preserves_ret.
Qed.

(** Whatever its outcome, a call keeps the attributes of [self] and every
    array of the store, the input among them, as they were. *)
Lemma _equation_extends s X t : extends s (_equation X t s).1.
Proof.
  unfold _equation. unfold bind at 1.
  destruct (arrays s !! X) as [xs|] eqn:HX;
    [rewrite (shape_run s X xs HX) | rewrite (shape_raises s X HX)];
    [|apply extends_refl].
  unfold bind at 1. rewrite zeros_run.
  apply (preserves_assignments s X t (length (arrays s))); [lia|].
  apply extends_snoc_array.
Qed.

(** ** Calls on a model without a forcing function *)

Lemma fails_forcing_term s t :
  F (attrs s) = None -> fails (getattr a .* call_F t)%py s TypeError.
Proof.
  intros HF. eapply fails_binop_r; [apply evals_getattr|].
  apply fails_call_F, HF.
Qed.

Lemma fails_expr_x_no_forcing s X t :
  F (attrs s) = None -> exists err, fails (expr_x X t) s err.
Proof.
  intros HF. unfold expr_x.
  set (L := (.- X.[1::3] .**2 .- X.[2::3] .**2 .- getattr a .* X.[0::3])%py).
  assert (HL : stateless L) by (unfold L; stateless_expr).
  specialize (HL s). destruct (L s) as [s' [err|u]] eqn:E; cbn in HL; subst s'.
  - exists err. apply fails_binop_l. exact E.
  - exists TypeError. eapply fails_binop_r; [exact E|].
    apply fails_forcing_term, HF.
Qed.

Lemma _equation_no_forcing s X t :
  F (attrs s) = None -> exists err, (_equation X t s).2 = inl err.
Proof.
  intros HF. unfold _equation. unfold bind at 1.
  destruct (arrays s !! X) as [xs|] eqn:HX;
    [rewrite (shape_run s X xs HX) | rewrite (shape_raises s X HX)];
    [|exists InvalidRef; reflexivity].
  unfold bind at 1. rewrite zeros_run.
  destruct (fails_expr_x_no_forcing (snoc_array s (replicate (length xs) 0))
              X t HF) as [err Herr].
  exists err. erewrite assign_raises_rhs; [reflexivity | exact Herr].
Qed.

Lemma _equation_no_forcing_TypeError s X xs t q :
  arrays s !! X = Some xs -> length xs = (3 * q)%nat -> F (attrs s) = None ->
  (_equation X t s).2 = inl TypeError.
Proof.
  intros HX Hq HF. start_equation HX.
  erewrite assign_raises_rhs; [reflexivity|].
  eapply fails_binop_r; [|apply fails_forcing_term, HF].
  eval_expr; first [ reflexivity | apply broadcast_same_length; lengths q ].
Qed.

(** ** The forcing functions *)

Lemma tcc_default_value : TimeForcing.tcc_default = 7300.
Proof. unfold TimeForcing.tcc_default. lra. Qed.

Lemma linear_before t :
  t < TimeForcing.tcc_default -> TimeForcing.linear t None = 0.
Proof.
  intros Ht. unfold TimeForcing.linear. cbn [default].
  destruct (Rlt_dec t TimeForcing.tcc_default); [reflexivity | contradiction].
Qed.

Lemma linear_from t :
  TimeForcing.tcc_default <= t ->
  TimeForcing.linear t None
  = -2 * (t - TimeForcing.tcc_default) / TimeForcing.tcc_default.
Proof.
  intros Ht. unfold TimeForcing.linear. cbn [default].
  destruct (Rlt_dec t TimeForcing.tcc_default); [lra | reflexivity].
Qed.

(** ** The call on a well-formed packed state *)

Lemma output_run s X xs f t q :
  arrays s !! X = Some xs -> F (attrs s) = Some f -> length xs = (3 * q)%nat ->
  output (_equation X t s) = inr (orbitwise (attrs s) (f t) xs).
Proof.
  intros HX HF Hq. rewrite (_equation_run s X xs f t q HX HF Hq).
  unfold output, snoc_array. cbn [arrays].
  rewrite list_lookup_middle by reflexivity. reflexivity.
Qed.

(** * The claims *)

(** C1.  On a model with a forcing function [f] in place and a packed state
    of length [3*N], the derivative operation returns an array of the same
    length whose entries at the flat indices [3i], [3i+1], [3i+2] of every
    orbit [i < N] are
    [dx_i = -y_i^2 - z_i^2 - a*x_i + a*f(t)],
    [dy_i = x_i*y_i - b*x_i*z_i - y_i + G] and
    [dz_i = x_i*z_i + b*x_i*y_i - z_i],
    where [x_i], [y_i], [z_i] are the entries of the input at the same
    indices. *)
Theorem C1_equation_per_orbit
    (s : state) (X : loc) (xs : list R) (f : R -> R) (t : R) :
  arrays s !! X = Some xs ->
  F (attrs s) = Some f ->
  length xs = (3 * size (attrs s))%nat ->
  exists ds,
    output (_equation X t s) = inr ds /\
    length ds = length xs /\
    forall i, (i < size (attrs s))%nat ->
      exists x y z,
        xs !! (3 * i)%nat = Some x /\
        xs !! (3 * i + 1)%nat = Some y /\
        xs !! (3 * i + 2)%nat = Some z /\
        ds !! (3 * i)%nat
          = Some (- y ^ 2 - z ^ 2 - a (attrs s) * x + a (attrs s) * f t) /\
        ds !! (3 * i + 1)%nat
          = Some (x * y - b (attrs s) * x * z - y + G (attrs s)) /\
        ds !! (3 * i + 2)%nat
          = Some (x * z + b (attrs s) * x * y - z).
Proof.
  intros HX HF Hl. exists (orbitwise (attrs s) (f t) xs).
  split; [apply (output_run s X xs f t _ HX HF Hl)|].
  split; [apply (orbitwise_length _ _ _ _ Hl)|].
  intros i Hi.
  destruct (lookup_lt_is_Some_2 xs (3 * i)) as [x Hx]; [lia|].
  destruct (lookup_lt_is_Some_2 xs (3 * i + 1)) as [y Hy]; [lia|].
  destruct (lookup_lt_is_Some_2 xs (3 * i + 2)) as [z Hz]; [lia|].
  exists x, y, z. repeat (split; [assumption|]).
  apply orbitwise_lookup; assumption.
Qed.

Lemma C1_equation_per_orbit_witness :
  exists ds,
    output (_equation 0%nat 0 (store_of default_model [1; 2; 3])) = inr ds /\
    length ds = 3%nat.
Proof.
  destruct (C1_equation_per_orbit (store_of default_model [1; 2; 3]) 0%nat
              [1; 2; 3] TimeForcing.constant 0 eq_refl eq_refl eq_refl)
    as (ds & Hout & Hlen & _).
  exists ds. split; [exact Hout | exact Hlen].
Defined.

(** C2.  With a forcing function in place, the derivative of the packed
    two-orbit state [[x0,y0,z0,x1,y1,z1]] is the derivative of the
    single-orbit state [[x0,y0,z0]] followed by the derivative of the
    single-orbit state [[x1,y1,z1]], all at the same time [t]; and replacing
    one orbit by any other values leaves the three entries of the other orbit
    as they were. *)
Theorem C2_orbits_independent
    (s : state) (X X0 X1 : loc) (f : R -> R) (t x0 y0 z0 x1 y1 z1 : R) :
  F (attrs s) = Some f ->
  arrays s !! X = Some [x0; y0; z0; x1; y1; z1] ->
  arrays s !! X0 = Some [x0; y0; z0] ->
  arrays s !! X1 = Some [x1; y1; z1] ->
  exists d d0 d1,
    output (_equation X t s) = inr d /\
    output (_equation X0 t s) = inr d0 /\
    output (_equation X1 t s) = inr d1 /\
    length d0 = 3%nat /\ length d1 = 3%nat /\
    d = d0 ++ d1 /\
    (forall X' x1' y1' z1',
        arrays s !! X' = Some [x0; y0; z0; x1'; y1'; z1'] ->
        exists d', output (_equation X' t s) = inr d' /\ take 3 d' = d0) /\
    (forall X' x0' y0' z0',
        arrays s !! X' = Some [x0'; y0'; z0'; x1; y1; z1] ->
        exists d', output (_equation X' t s) = inr d' /\ drop 3 d' = d1).
Proof.
  intros HF HX HX0 HX1.
  exists (orbitwise (attrs s) (f t) [x0; y0; z0; x1; y1; z1]),
         (orbitwise (attrs s) (f t) [x0; y0; z0]),
         (orbitwise (attrs s) (f t) [x1; y1; z1]).
  split; [apply (output_run s X _ f t 2 HX HF eq_refl)|].
  split; [apply (output_run s X0 _ f t 1 HX0 HF eq_refl)|].
  split; [apply (output_run s X1 _ f t 1 HX1 HF eq_refl)|].
  repeat (split; [reflexivity|]).
  split; intros X' u v w HX';
    eexists; (split; [apply (output_run s X' _ f t 2 HX' HF eq_refl)|]);
    reflexivity.
Qed.

Lemma C2_orbits_independent_witness :
  exists d d0 d1,
    output (_equation 0%nat 0
              {| attrs := default_model;
                 arrays := [[1; 2; 3; 4; 5; 6]; [1; 2; 3]; [4; 5; 6]] |})
      = inr d /\
    output (_equation 1%nat 0
              {| attrs := default_model;
                 arrays := [[1; 2; 3; 4; 5; 6]; [1; 2; 3]; [4; 5; 6]] |})
      = inr d0 /\
    output (_equation 2%nat 0
              {| attrs := default_model;
                 arrays := [[1; 2; 3; 4; 5; 6]; [1; 2; 3]; [4; 5; 6]] |})
      = inr d1 /\
    d = d0 ++ d1.
Proof.
  destruct (C2_orbits_independent
              {| attrs := default_model;
                 arrays := [[1; 2; 3; 4; 5; 6]; [1; 2; 3]; [4; 5; 6]] |}
              0%nat 1%nat 2%nat TimeForcing.constant 0 1 2 3 4 5 6
              eq_refl eq_refl eq_refl eq_refl)
    as (d & d0 & d1 & H & H0 & H1 & _ & _ & Happ & _).
  exists d, d0, d1. repeat split; assumption.
Defined.

(** C10.  For every parameterization [(a, b, G)] with one orbit and constant
    forcing, the derivative at the state [(0, 0, 0)] is [(a*6, G, 0)] at
    every time [t]. *)
Theorem C10_derivative_at_origin (s : state) (X : loc) (t : R) :
  size (attrs s) = 1%nat ->
  F (attrs s) = Some TimeForcing.constant ->
  arrays s !! X = Some [0; 0; 0] ->
  output (_equation X t s) = inr [a (attrs s) * 6; G (attrs s); 0].
Proof.
  intros _ HF HX.
  rewrite (output_run s X _ _ t 1 HX HF eq_refl).
  unfold TimeForcing.constant. cbn [orbitwise].
  repeat f_equal; ring.
Qed.

Lemma C10_derivative_at_origin_witness :
  output (_equation 0%nat 0 (store_of default_model [0; 0; 0]))
  = inr [default_a * 6; default_G; 0].
Proof.
  exact (C10_derivative_at_origin (store_of default_model [0; 0; 0]) 0%nat 0
           eq_refl eq_refl eq_refl).
Defined.

(** A model built with [F] absent has constant forcing. *)
Lemma init_absent_F_constant a b G n :
  F (__init__ a b G PyNone n) = Some TimeForcing.constant.
Proof. reflexivity. Qed.

Lemma output_raises (r : state * result loc) err :
  r.2 = inl err -> output r = inl err.
Proof. destruct r as [s' [e|d]]; cbn; congruence. Qed.

(** C6.  Whatever the outcome of a call, the attributes of the model
    ([a], [b], [G], the forcing and the rest) and every array of the store,
    the input among them, are as before the call.  On a packed state (length
    a multiple of 3) and with a forcing function in place, the call returns
    the location of an array that did not exist before the call, hence is not
    the input, is the only array added to the store, and has the length of
    the input. *)
Theorem C6_fresh_output_and_frame (s : state) (X : loc) (t : R) :
  (attrs (_equation X t s).1 = attrs s /\
   forall (l : loc) (v : list R),
     arrays s !! l = Some v -> arrays (_equation X t s).1 !! l = Some v) /\
  (forall (xs : list R) (f : R -> R) (q : nat),
     arrays s !! X = Some xs ->
     F (attrs s) = Some f ->
     length xs = (3 * q)%nat ->
     exists (dX : loc) (s' : state) (ds : list R),
       _equation X t s = (s', inr dX) /\
       arrays s !! dX = None /\
       dX <> X /\
       arrays s' !! dX = Some ds /\
       length ds = length xs /\
       arrays s' !! X = Some xs /\
       length (arrays s') = S (length (arrays s))).
Proof.
  split.
  - pose proof (_equation_extends s X t) as Hext. split; [apply Hext|].
    intros l v Hl. apply (extends_lookup s _ l v Hext Hl).
  - intros xs f q HX HF Hq.
    exists (length (arrays s)), (snoc_array s (orbitwise (attrs s) (f t) xs)),
           (orbitwise (attrs s) (f t) xs).
    split; [apply (_equation_run s X xs f t q HX HF Hq)|].
    split; [apply lookup_ge_None_2; lia|].
    split; [apply lookup_lt_Some in HX; lia|].
    split; [apply list_lookup_middle; reflexivity|].
    split; [apply (orbitwise_length _ _ q), Hq|].
    split; [apply lookup_snoc_array, HX|].
    cbn [snoc_array arrays]. rewrite length_app. cbn. lia.
Qed.

Lemma C6_fresh_output_and_frame_witness :
  exists (dX : loc) (s' : state) (ds : list R),
    _equation 0%nat 0 (store_of default_model [1; 2; 3]) = (s', inr dX) /\
    dX <> 0%nat /\
    arrays s' !! dX = Some ds /\
    arrays s' !! 0%nat = Some [1; 2; 3] /\
    attrs s' = default_model.
Proof.
  destruct (C6_fresh_output_and_frame (store_of default_model [1; 2; 3])
              0%nat 0) as [[Hattrs _] Hcall].
  destruct (Hcall [1; 2; 3] TimeForcing.constant 1%nat eq_refl eq_refl eq_refl)
    as (dX & s' & ds & Hrun & _ & Hne & Hd & _ & HX & _).
  exists dX, s', ds. rewrite Hrun in Hattrs.
  repeat split; assumption.
Defined.

(** C4, as stated, fails: a model built for one orbit accepts a packed state
    of two orbits (length 6, not [3*N = 3]) and returns its derivative. *)
Lemma C4_counterexample_two_orbits_for_N_1 :
  size default_model = 1%nat /\
  length [1; 2; 3; 4; 5; 6] <> (3 * size default_model)%nat /\
  output (_equation 0%nat 0 (store_of default_model [1; 2; 3; 4; 5; 6]))
  = inr [-11.75; -11; 8; -60.5; -80; 98].
Proof.
  split; [reflexivity|]. split; [cbn; lia|].
  rewrite (output_run (store_of default_model [1; 2; 3; 4; 5; 6]) 0%nat
             [1; 2; 3; 4; 5; 6] TimeForcing.constant 0 2
             eq_refl eq_refl eq_refl).
  unfold TimeForcing.constant. cbn [orbitwise store_of attrs default_model
    __init__ a b G]. unfold default_a, default_b, default_G.
  repeat f_equal; lra.
Qed.

(** C4, amended.  The derivative operation does not compare the length of
    the state with [3*N].  With a forcing function in place it raises
    [ValueError], numpy's shape mismatch, and returns nothing exactly when the
    length of the state is not a multiple of 3; when the length is a multiple
    of 3, equal to [3*N] or not, it returns an array of the length of the
    state, neither truncated nor padded. *)
Theorem C4_length_multiple_of_3
    (s : state) (X : loc) (xs : list R) (f : R -> R) (t : R) :
  arrays s !! X = Some xs ->
  F (attrs s) = Some f ->
  ((length xs mod 3 <> 0)%nat ->
   output (_equation X t s) = inl ValueError) /\
  ((length xs mod 3 = 0)%nat ->
   exists ds, output (_equation X t s) = inr ds /\ length ds = length xs).
Proof.
  intros HX HF. split.
  - intros Hmod. apply output_raises.
    apply (_equation_bad_length s X f t HF xs HX Hmod).
  - intros Hmod.
    assert (Hq : length xs = (3 * (length xs / 3))%nat).
    { pose proof (Nat.div_mod_eq (length xs) 3). lia. }
    exists (orbitwise (attrs s) (f t) xs).
    split; [apply (output_run s X xs f t _ HX HF Hq)|].
    apply (orbitwise_length _ _ _ _ Hq).
Qed.

Lemma C4_length_multiple_of_3_witness :
  output (_equation 0%nat 0 (store_of default_model [1; 2; 3; 4]))
  = inl ValueError /\
  exists ds,
    output (_equation 0%nat 0 (store_of default_model [1; 2; 3; 4; 5; 6]))
    = inr ds /\ length ds = 6%nat.
Proof.
  split.
  - apply (C4_length_multiple_of_3 (store_of default_model [1; 2; 3; 4]) 0%nat
             [1; 2; 3; 4] TimeForcing.constant 0 eq_refl eq_refl).
    cbn. lia.
  - apply (C4_length_multiple_of_3
             (store_of default_model [1; 2; 3; 4; 5; 6]) 0%nat
             [1; 2; 3; 4; 5; 6] TimeForcing.constant 0 eq_refl eq_refl).
    reflexivity.
Defined.

(** ** Resolution of the forcing by the constructor *)

Lemma cyclic_at_0 : TimeForcing.cyclic 0 = 9.5.
Proof.
  unfold TimeForcing.cyclic.
  replace (0 * 2 * PI / 73) with 0 by (unfold Rdiv; ring).
  rewrite sin_0. lra.
Qed.


Lemma init_fallback a b G v n :
  callable v = false -> is_str v = false ->
  F (__init__ a b G v n) = Some TimeForcing.constant.
Proof. destruct v; cbn; intros Hc Hs; try discriminate; reflexivity. Qed.

Lemma init_unrecognized_string a b G str n :
  str <> "cyclic"%string -> str <> "linear"%string ->
  str <> "cyclic-linear"%string ->
  F (__init__ a b G (PyStr str) n) = None.
Proof.
  intros H1 H2 H3. cbn.
  rewrite (proj2 (String.eqb_neq _ _) H1), (proj2 (String.eqb_neq _ _) H2),
    (proj2 (String.eqb_neq _ _) H3).
  reflexivity.
Qed.


(** C3.  The constructor resolves the forcing to [TimeForcing.constant] when
    [F] is absent and for every [F] that is neither callable nor a string; at
    the string ["sinusoidal"], which is not callable and not one of the three
    tokens, it leaves the forcing at [None] instead of
    [TimeForcing.constant]. *)
Theorem C3_fallback_misses_unrecognized_strings :
  (forall a b G n, F (__init__ a b G PyNone n) = Some TimeForcing.constant) /\
  (forall a b G v n,
     callable v = false -> is_str v = false ->
     F (__init__ a b G v n) = Some TimeForcing.constant) /\
  callable (PyStr "sinusoidal") = false /\
  F (__init__ default_a default_b default_G (PyStr "sinusoidal") 1) = None /\
  F (__init__ default_a default_b default_G (PyStr "sinusoidal") 1)
    <> Some TimeForcing.constant.
Proof.
  split; [reflexivity|]. split; [apply init_fallback|].
  split; [reflexivity|]. split; [reflexivity|]. discriminate.
Qed.



(** C7.  The forcing that the constructor resolves for the token
    ["cyclic-linear"] is, at every time [t], the sum
    [TimeForcing.cyclic(t) + TimeForcing.linear(t)]. *)
Theorem C7_cyclic_linear_is_sum (a b G : R) (n : nat) :
  exists f,
    F (__init__ a b G (PyStr "cyclic-linear") n) = Some f /\
    forall t, f t = TimeForcing.cyclic t + TimeForcing.linear t None.
Proof. eexists. split; [reflexivity|]. intros t. reflexivity. Qed.

(** C8, as stated, fails in the arithmetic of the code: at the two
    neighbouring floats [1000000.0000000001 < 1000000.0000000002], both after
    [tcc = 7300], [linear] returns the same value [-271.97260273972609], so it
    is not strictly decreasing there. *)
Lemma C8_counterexample_tie_in_binary64 :
  PrimFloat.ltb TimeForcing.tcc_default64 0x1.e848000000001p+19%float = true /\
  PrimFloat.ltb 0x1.e848000000001p+19%float 0x1.e848000000002p+19%float = true /\
  TimeForcing.linear64 0x1.e848000000002p+19%float None
  = TimeForcing.linear64 0x1.e848000000001p+19%float None /\
  PrimFloat.ltb (TimeForcing.linear64 0x1.e848000000002p+19%float None)
                (TimeForcing.linear64 0x1.e848000000001p+19%float None)
  = false.
Proof. vm_compute. repeat split; reflexivity. Qed.

(** C8, amended.  [TimeForcing.linear] with the default [tcc = 100*73] is 0
    at every [t < tcc] and at [t = tcc]; at every [t > tcc] it is
    [-2*(t - tcc)/tcc], which is negative; and it never increases with [t]
    (it decreases, but not strictly at every pair of times). *)
Theorem C8_linear_default :
  TimeForcing.tcc_default = 100 * 73 /\
  (forall t, t < TimeForcing.tcc_default -> TimeForcing.linear t None = 0) /\
  TimeForcing.linear TimeForcing.tcc_default None = 0 /\
  (forall t,
     TimeForcing.tcc_default < t ->
     TimeForcing.linear t None
     = -2 * (t - TimeForcing.tcc_default) / TimeForcing.tcc_default /\
     TimeForcing.linear t None < 0) /\
  (forall t1 t2,
     t1 <= t2 ->
     TimeForcing.linear t2 None <= TimeForcing.linear t1 None).
Proof.
  split; [reflexivity|]. split; [exact linear_before|].
  split; [|split].
  - rewrite linear_from by lra. rewrite tcc_default_value. lra.
  - intros t Ht. split; [apply linear_from; lra|].
    rewrite linear_from by lra. rewrite tcc_default_value in *. lra.
  - intros t1 t2 H12.
    destruct (Rlt_dec t2 TimeForcing.tcc_default) as [H2|H2].
    + rewrite !linear_before by lra. lra.
    + rewrite (linear_from t2) by lra.
      destruct (Rlt_dec t1 TimeForcing.tcc_default) as [H1|H1].
      * rewrite linear_before by exact H1. rewrite tcc_default_value in *. lra.
      * rewrite linear_from by lra. rewrite tcc_default_value in *. lra.
Qed.

Lemma C8_linear_default_witness :
  TimeForcing.linear 0 None = 0 /\
  TimeForcing.linear 7300 None = 0 /\
  TimeForcing.linear 14600 None = -2 /\
  TimeForcing.linear 14600 None <= TimeForcing.linear 10950 None.
Proof.
  destruct C8_linear_default as (_ & Hbefore & Hat & Hafter & Hmono).
  split; [apply Hbefore; rewrite tcc_default_value; lra|].
  split; [rewrite <- tcc_default_value; exact Hat|].
  split.
  - rewrite (proj1 (Hafter 14600 ltac:(rewrite tcc_default_value; lra))).
    rewrite tcc_default_value. lra.
  - apply Hmono. lra.
Defined.

(** * Further properties of the forcing functions *)

(** X1.  [TimeForcing.cyclic] stays between 7.5 and 11.5 at every time; it is
    9.5 at [t = 0], reaches 11.5 a quarter of a year in ([t = 73/4]) and 7.5
    three quarters in ([t = 3*73/4]). *)
Theorem X1_cyclic_range :
  (forall t, 7.5 <= TimeForcing.cyclic t <= 11.5) /\
  TimeForcing.cyclic 0 = 9.5 /\
  TimeForcing.cyclic (73 / 4) = 11.5 /\
  TimeForcing.cyclic (3 * 73 / 4) = 7.5.
Proof.
  split; [|split; [exact cyclic_at_0|split]].
  - intros t. unfold TimeForcing.cyclic.
    pose proof (SIN_bound (t * 2 * PI / 73)). lra.
  - unfold TimeForcing.cyclic.
    replace (73 / 4 * 2 * PI / 73) with (PI / 2) by field.
    rewrite sin_PI2. lra.
  - unfold TimeForcing.cyclic.
    replace (3 * 73 / 4 * 2 * PI / 73) with (3 * (PI / 2)) by field.
    rewrite sin_3PI2. lra.
Qed.

Lemma linear_Some_before t tcc :
  t < tcc -> TimeForcing.linear t (Some tcc) = 0.
Proof.
  intros Ht. unfold TimeForcing.linear. cbn [from_option]. unfold Datatypes.id.
  destruct (Rlt_dec t tcc); [reflexivity | contradiction].
Qed.

Lemma linear_Some_from t tcc :
  tcc <= t -> TimeForcing.linear t (Some tcc) = -2 * (t - tcc) / tcc.
Proof.
  intros Ht. unfold TimeForcing.linear. cbn [from_option]. unfold Datatypes.id.
  destruct (Rlt_dec t tcc); [lra | reflexivity].
Qed.

(** X2.  [TimeForcing.linear] called with an explicit positive [tcc]: it is 0
    up to [tcc], it is [-2*d/tcc] at [tcc + d] for [d >= 0] (so [-2] one
    [tcc] later), it is never positive, and it never increases with time. *)
Theorem X2_linear_positive_tcc (tcc : R) :
  0 < tcc ->
  (forall t, t <= tcc -> TimeForcing.linear t (Some tcc) = 0) /\
  (forall d, 0 <= d -> TimeForcing.linear (tcc + d) (Some tcc) = -2 * d / tcc) /\
  TimeForcing.linear (2 * tcc) (Some tcc) = -2 /\
  (forall t, TimeForcing.linear t (Some tcc) <= 0) /\
  (forall t1 t2,
     t1 <= t2 ->
     TimeForcing.linear t2 (Some tcc) <= TimeForcing.linear t1 (Some tcc)).
Proof.
  intros Htcc.
  assert (Hinv : 0 < / tcc) by (apply Rinv_0_lt_compat, Htcc).
  assert (Hramp : forall t, tcc <= t -> -2 * (t - tcc) / tcc <= 0).
  { intros t Ht. unfold Rdiv. nra. }
  split; [|split; [|split; [|split]]].
  - intros t Ht. destruct (Rlt_dec t tcc) as [Hlt|Hge].
    + apply linear_Some_before, Hlt.
    + replace t with tcc by lra. rewrite linear_Some_from by lra.
      unfold Rdiv. ring.
  - intros d Hd. rewrite linear_Some_from by lra. f_equal. ring.
  - rewrite linear_Some_from by lra. field. lra.
  - intros t. destruct (Rlt_dec t tcc) as [Hlt|Hge].
    + rewrite linear_Some_before by exact Hlt. lra.
    + rewrite linear_Some_from by lra. apply Hramp. lra.
  - intros t1 t2 H12. destruct (Rlt_dec t2 tcc) as [H2|H2].
    + rewrite !linear_Some_before by lra. lra.
    + rewrite (linear_Some_from t2) by lra.
      destruct (Rlt_dec t1 tcc) as [H1|H1].
      * rewrite linear_Some_before by exact H1. apply Hramp. lra.
      * rewrite linear_Some_from by lra. unfold Rdiv. nra.
Qed.

Lemma X2_linear_positive_tcc_witness :
  TimeForcing.linear 100 (Some 100) = 0 /\
  TimeForcing.linear 200 (Some 100) = -2 /\
  TimeForcing.linear 150 (Some 100) <= TimeForcing.linear 120 (Some 100).
Proof.
  destruct (X2_linear_positive_tcc 100 ltac:(lra))
    as (Hzero & _ & Htwo & _ & Hmono).
  split; [apply Hzero; lra|].
  split; [replace 200 with (2 * 100) by lra; exact Htwo|].
  apply Hmono. lra.
Defined.



(** X4.  The forcing that the constructor resolves for ["cyclic-linear"]
    is the seasonal cycle alone before year 100 ([t < 7300]), never exceeds
    11.5, and is negative at every time after [t = 49275] (6.75 times
    [tcc]). *)
Theorem X4_cyclic_linear_forcing (a b G : R) (n : nat) :
  exists f,
    F (__init__ a b G (PyStr "cyclic-linear") n) = Some f /\
    (forall t, t < 7300 -> f t = TimeForcing.cyclic t) /\
    (forall t, f t <= 11.5) /\
    (forall t, 49275 < t -> f t < 0).
Proof.
  eexists. split; [reflexivity|]. cbv beta.
  assert (Hc : forall t, 7.5 <= TimeForcing.cyclic t <= 11.5).
  { intros t. unfold TimeForcing.cyclic.
    pose proof (SIN_bound (t * 2 * PI / 73)). lra. }
  split; [|split].
  - intros t Ht. rewrite linear_before by (rewrite tcc_default_value; lra). lra.
  - intros t. specialize (Hc t). destruct (Rlt_dec t 7300) as [Hlt|Hge].
    + rewrite linear_before by (rewrite tcc_default_value; lra). lra.
    + rewrite linear_from by (rewrite tcc_default_value; lra).
      rewrite tcc_default_value. lra.
  - intros t Ht. specialize (Hc t).
    rewrite linear_from by (rewrite tcc_default_value; lra).
    rewrite tcc_default_value. lra.
Qed.

(** * Further properties of the derivative *)

Lemma orbitwise_app m ft p : forall xs ys,
  length xs = (3 * p)%nat ->
  orbitwise m ft (xs ++ ys) = orbitwise m ft xs ++ orbitwise m ft ys.
Proof.
  induction p as [|p IH]; intros xs ys Hl.
  - destruct xs; [reflexivity | discriminate].
  - destruct xs as [|x [|y [|z xs]]]; cbn in Hl; try lia.
    cbn [app orbitwise]. rewrite (IH xs ys) by lia. reflexivity.
Qed.

Lemma lookup_orbit (xs : list R) (q i : nat) :
  length xs = (3 * q)%nat -> (i < q)%nat ->
  exists x y z,
    xs !! (3 * i)%nat = Some x /\
    xs !! (3 * i + 1)%nat = Some y /\
    xs !! (3 * i + 2)%nat = Some z.
Proof.
  intros Hl Hi.
  destruct (lookup_lt_is_Some_2 xs (3 * i)) as [x Hx]; [lia|].
  destruct (lookup_lt_is_Some_2 xs (3 * i + 1)) as [y Hy]; [lia|].
  destruct (lookup_lt_is_Some_2 xs (3 * i + 2)) as [z Hz]; [lia|].
  exists x, y, z. repeat split; assumption.
Qed.

(** X6.  With [G = 0] the state [(F(t), 0, 0)] is an equilibrium at time
    [t]: its derivative is [(0, 0, 0)], whatever [a] and [b] are. *)
Theorem X6_equilibrium_without_G
    (s : state) (X : loc) (f : R -> R) (t : R) :
  G (attrs s) = 0 ->
  F (attrs s) = Some f ->
  arrays s !! X = Some [f t; 0; 0] ->
  output (_equation X t s) = inr [0; 0; 0].
Proof.
  intros HG HF HX.
  rewrite (output_run s X _ f t 1 HX HF eq_refl).
  cbn [orbitwise]. rewrite HG. repeat f_equal; ring.
Qed.

Lemma X6_equilibrium_without_G_witness :
  output (_equation 0%nat 0
            (store_of (__init__ default_a default_b 0 PyNone 1) [6; 0; 0]))
  = inr [0; 0; 0].
Proof.
  exact (X6_equilibrium_without_G
           (store_of (__init__ default_a default_b 0 PyNone 1) [6; 0; 0])
           0%nat TimeForcing.constant 0 eq_refl eq_refl eq_refl).
Defined.

(** X7.  Orbit independence for any number of orbits: the derivative of two
    packed states put end to end is the derivative of the first followed by
    the derivative of the second. *)
Theorem X7_derivative_of_concatenation
    (s : state) (X X1 X2 : loc) (xs ys : list R) (f : R -> R) (t : R)
    (p q : nat) :
  F (attrs s) = Some f ->
  arrays s !! X = Some (xs ++ ys) ->
  arrays s !! X1 = Some xs ->
  arrays s !! X2 = Some ys ->
  length xs = (3 * p)%nat ->
  length ys = (3 * q)%nat ->
  exists d d1 d2,
    output (_equation X t s) = inr d /\
    output (_equation X1 t s) = inr d1 /\
    output (_equation X2 t s) = inr d2 /\
    length d1 = length xs /\
    d = d1 ++ d2.
Proof.
  intros HF HX HX1 HX2 Hp Hq.
  assert (Hpq : length (xs ++ ys) = (3 * (p + q))%nat)
    by (rewrite length_app; lia).
  eexists _, _, _.
  split; [apply (output_run s X _ f t _ HX HF Hpq)|].
  split; [apply (output_run s X1 _ f t _ HX1 HF Hp)|].
  split; [apply (output_run s X2 _ f t _ HX2 HF Hq)|].
  split; [apply (orbitwise_length _ _ p), Hp|].
  apply (orbitwise_app _ _ p), Hp.
Qed.

Lemma X7_derivative_of_concatenation_witness :
  exists d d1 d2,
    output (_equation 0%nat 0
              {| attrs := default_model;
                 arrays := [[1; 2; 3; 4; 5; 6; 7; 8; 9]; [1; 2; 3];
                            [4; 5; 6; 7; 8; 9]] |}) = inr d /\
    output (_equation 1%nat 0
              {| attrs := default_model;
                 arrays := [[1; 2; 3; 4; 5; 6; 7; 8; 9]; [1; 2; 3];
                            [4; 5; 6; 7; 8; 9]] |}) = inr d1 /\
    output (_equation 2%nat 0
              {| attrs := default_model;
                 arrays := [[1; 2; 3; 4; 5; 6; 7; 8; 9]; [1; 2; 3];
                            [4; 5; 6; 7; 8; 9]] |}) = inr d2 /\
    d = d1 ++ d2.
Proof.
  destruct (X7_derivative_of_concatenation
              {| attrs := default_model;
                 arrays := [[1; 2; 3; 4; 5; 6; 7; 8; 9]; [1; 2; 3];
                            [4; 5; 6; 7; 8; 9]] |}
              0%nat 1%nat 2%nat [1; 2; 3] [4; 5; 6; 7; 8; 9]
              TimeForcing.constant 0 1 2
              eq_refl eq_refl eq_refl eq_refl eq_refl eq_refl)
    as (d & d1 & d2 & H & H1 & H2 & _ & Happ).
  exists d, d1, d2. repeat split; assumption.
Defined.

Lemma orbitwise_same_parameters m m' ft :
  a m' = a m -> b m' = b m -> G m' = G m ->
  forall (n : nat) (xs : list R),
    (length xs <= n)%nat -> orbitwise m' ft xs = orbitwise m ft xs.
Proof.
  intros Ha Hb HG. induction n as [|n IH]; intros xs Hl;
    destruct xs as [|x [|y [|z xs]]]; try reflexivity; cbn in Hl; try lia.
  cbn [orbitwise]. rewrite Ha, Hb, HG, (IH xs) by lia. reflexivity.
Qed.

(** X8.  The forcing and the time reach the x-equation only.  Two models
    with the same [a], [b], [G] and any two forcing functions, evaluated on
    the same state at any two times, give the same [dy] and [dz] for every
    orbit; when the two forcing values are equal they give the same [dx] as
    well. *)
Theorem X8_forcing_reaches_dx_only
    (s s' : state) (X X' : loc) (xs : list R) (f f' : R -> R) (t t' : R)
    (q : nat) :
  a (attrs s') = a (attrs s) ->
  b (attrs s') = b (attrs s) ->
  G (attrs s') = G (attrs s) ->
  F (attrs s) = Some f ->
  F (attrs s') = Some f' ->
  arrays s !! X = Some xs ->
  arrays s' !! X' = Some xs ->
  length xs = (3 * q)%nat ->
  exists ds ds',
    output (_equation X t s) = inr ds /\
    output (_equation X' t' s') = inr ds' /\
    length ds' = length ds /\
    (forall i, (i < q)%nat ->
       ds' !! (3 * i + 1)%nat = ds !! (3 * i + 1)%nat /\
       ds' !! (3 * i + 2)%nat = ds !! (3 * i + 2)%nat) /\
    (f' t' = f t -> ds' = ds).
Proof.
  intros Ha Hb HG HF HF' HX HX' Hl.
  eexists _, _.
  split; [apply (output_run s X xs f t q HX HF Hl)|].
  split; [apply (output_run s' X' xs f' t' q HX' HF' Hl)|].
  split; [rewrite !(orbitwise_length _ _ q) by exact Hl; reflexivity|].
  split.
  - intros i Hi.
    destruct (lookup_orbit xs q i Hl Hi) as (x & y & z & Hx & Hy & Hz).
    destruct (orbitwise_lookup (attrs s) (f t) i xs x y z Hx Hy Hz)
      as (_ & Hdy & Hdz).
    destruct (orbitwise_lookup (attrs s') (f' t') i xs x y z Hx Hy Hz)
      as (_ & Hdy' & Hdz').
    rewrite Hdy, Hdz, Hdy', Hdz', Hb, HG. split; reflexivity.
  - intros Hf. rewrite Hf.
    apply (orbitwise_same_parameters _ _ _ Ha Hb HG (length xs) xs). lia.
Qed.

Lemma X8_forcing_reaches_dx_only_witness :
  exists ds ds',
    output (_equation 0%nat 0 (store_of default_model [1; 2; 3])) = inr ds /\
    output (_equation 0%nat 5
              (store_of (__init__ default_a default_b default_G
                           (PyStr "cyclic") 1) [1; 2; 3])) = inr ds' /\
    ds' !! 1%nat = ds !! 1%nat /\
    ds' !! 2%nat = ds !! 2%nat.
Proof.
  destruct (X8_forcing_reaches_dx_only
              (store_of default_model [1; 2; 3])
              (store_of (__init__ default_a default_b default_G
                           (PyStr "cyclic") 1) [1; 2; 3])
              0%nat 0%nat [1; 2; 3] TimeForcing.constant TimeForcing.cyclic
              0 5 1 eq_refl eq_refl eq_refl eq_refl eq_refl eq_refl eq_refl
              eq_refl)
    as (ds & ds' & H & H' & _ & Hi & _).
  destruct (Hi 0%nat ltac:(lia)) as (Hy & Hz).
  exists ds, ds'. repeat split; assumption.
Defined.

Lemma output_same_forcing_value s X xs f t t' :
  arrays s !! X = Some xs -> F (attrs s) = Some f -> f t = f t' ->
  output (_equation X t s) = output (_equation X t' s).
Proof.
  intros HX HF Hf.
  destruct (Nat.eq_dec (length xs mod 3) 0%nat) as [Hmod|Hmod].
  - assert (Hq : length xs = (3 * (length xs / 3))%nat).
    { pose proof (Nat.div_mod_eq (length xs) 3). lia. }
    rewrite (output_run s X xs f t _ HX HF Hq),
      (output_run s X xs f t' _ HX HF Hq), Hf.
    reflexivity.
  - rewrite (output_raises _ _ (_equation_bad_length s X f t HF xs HX Hmod)),
      (output_raises _ _ (_equation_bad_length s X f t' HF xs HX Hmod)).
    reflexivity.
Qed.

(** X9.  With constant forcing the system is autonomous: on the same store
    the derivative operation gives the same result at every time, a state of
    any length included (the same array contents, or the same exception). *)
Theorem X9_constant_forcing_autonomous
    (s : state) (X : loc) (xs : list R) (t t' : R) :
  arrays s !! X = Some xs ->
  F (attrs s) = Some TimeForcing.constant ->
  output (_equation X t s) = output (_equation X t' s).
Proof.
  intros HX HF.
  apply (output_same_forcing_value s X xs _ t t' HX HF). reflexivity.
Qed.

Lemma X9_constant_forcing_autonomous_witness :
  output (_equation 0%nat 0 (store_of default_model [1; 2; 3]))
  = output (_equation 0%nat 40 (store_of default_model [1; 2; 3])).
Proof.
  exact (X9_constant_forcing_autonomous (store_of default_model [1; 2; 3])
           0%nat [1; 2; 3] 0 40 eq_refl eq_refl).
Defined.

(** ** Which exception a model without forcing raises *)

Ltac no_forcing_TypeError HX HF :=
  start_equation HX;
  (erewrite assign_raises_rhs; [reflexivity|]);
  (eapply fails_binop_r; [|apply fails_forcing_term, HF]);
  eval_expr; reflexivity.

Section NoForcing.
Variables (s : state) (X : loc) (t : R).
Hypothesis HF : F (attrs s) = None.

Lemma _equation_no_forcing_length_1 x :
  arrays s !! X = Some [x] -> (_equation X t s).2 = inl TypeError.
Proof. intros HX. no_forcing_TypeError HX HF. Qed.

Lemma _equation_no_forcing_length_2 x y :
  arrays s !! X = Some [x; y] -> (_equation X t s).2 = inl TypeError.
Proof. intros HX. no_forcing_TypeError HX HF. Qed.

Lemma _equation_no_forcing_length_4 x y z x' :
  arrays s !! X = Some [x; y; z; x'] -> (_equation X t s).2 = inl TypeError.
Proof. intros HX. no_forcing_TypeError HX HF. Qed.

Lemma _equation_no_forcing_length_5 x y z x' y' :
  arrays s !! X = Some [x; y; z; x'; y'] ->
  (_equation X t s).2 = inl TypeError.
Proof. intros HX. no_forcing_TypeError HX HF. Qed.
End NoForcing.

(** X11.  On a model whose forcing is [None] the exception depends on the
    length of the state, because the slices are combined before the forcing
    is called: [TypeError] when the length is a multiple of 3 or below 6,
    [ValueError] when it is at least 6 and not a multiple of 3. *)
Theorem X11_exception_without_forcing
    (s : state) (X : loc) (xs : list R) (t : R) :
  F (attrs s) = None ->
  arrays s !! X = Some xs ->
  ((length xs mod 3 = 0 \/ length xs < 6)%nat ->
   output (_equation X t s) = inl TypeError) /\
  ((length xs mod 3 <> 0)%nat -> (6 <= length xs)%nat ->
   output (_equation X t s) = inl ValueError).
Proof.
  intros HF HX.
  pose proof (Nat.div_mod_eq (length xs) 3) as Hdiv.
  pose proof (Nat.mod_upper_bound (length xs) 3 ltac:(lia)) as Hr.
  split.
  - intros Hcase. apply output_raises.
    destruct (Nat.eq_dec (length xs mod 3) 0%nat) as [Hmod|Hmod].
    + apply (_equation_no_forcing_TypeError s X xs t (length xs / 3) HX);
        [lia | exact HF].
    + destruct Hcase as [Hcase|Hcase]; [contradiction|].
      destruct xs as [|x0 [|x1 [|x2 [|x3 [|x4 [|x5 xs]]]]]];
        cbn [length] in Hcase; try lia.
      * exfalso. apply Hmod. reflexivity.
      * apply (_equation_no_forcing_length_1 s X t HF _ HX).
      * apply (_equation_no_forcing_length_2 s X t HF _ _ HX).
      * exfalso. apply Hmod. reflexivity.
      * apply (_equation_no_forcing_length_4 s X t HF _ _ _ _ HX).
      * apply (_equation_no_forcing_length_5 s X t HF _ _ _ _ _ HX).
  - intros Hmod Hlen. apply output_raises.
    set (q := (length xs / 3)%nat) in *. set (r := (length xs mod 3)%nat) in *.
    assert (r = 1 \/ r = 2)%nat as [E|E] by lia.
    + apply (_equation_length_3q1 s X t xs q HX); lia.
    + apply (_equation_length_3q2 s X t xs q HX); lia.
Qed.

Lemma X11_exception_without_forcing_witness :
  output (_equation 0%nat 0
            (store_of (__init__ default_a default_b default_G
                         (PyStr "sinusoidal") 1) [1; 2; 3; 4]))
  = inl TypeError /\
  output (_equation 0%nat 0
            (store_of (__init__ default_a default_b default_G
                         (PyStr "sinusoidal") 1) [1; 2; 3; 4; 5; 6; 7]))
  = inl ValueError.
Proof.
  split.
  - apply (X11_exception_without_forcing
             (store_of (__init__ default_a default_b default_G
                          (PyStr "sinusoidal") 1) [1; 2; 3; 4])
             0%nat [1; 2; 3; 4] 0 eq_refl eq_refl).
    right. cbn. lia.
  - apply (X11_exception_without_forcing
             (store_of (__init__ default_a default_b default_G
                          (PyStr "sinusoidal") 1) [1; 2; 3; 4; 5; 6; 7])
             0%nat [1; 2; 3; 4; 5; 6; 7] 0 eq_refl eq_refl).
    + cbn. lia.
    + cbn. lia.
Defined.

(** X12.  The constructor leaves the forcing at [None] exactly for a string
    that is none of the three tokens; every other argument, callable or not,
    gives the model a forcing function. *)
Theorem X12_forcing_None_iff_unrecognized_string
    (a b G : R) (v : pyval) (n : nat) :
  F (__init__ a b G v n) = None <->
  exists str,
    v = PyStr str /\ str <> "cyclic"%string /\ str <> "linear"%string /\
    str <> "cyclic-linear"%string.
Proof.
  split.
  - destruct v as [|str|r|f]; cbn; try discriminate.
    intros H. exists str. split; [reflexivity|].
    destruct (String.eqb_spec str "cyclic"); [discriminate|].
    destruct (String.eqb_spec str "linear"); [discriminate|].
    destruct (String.eqb_spec str "cyclic-linear"); [discriminate|].
    repeat split; assumption.
  - intros (str & -> & H1 & H2 & H3).
    apply init_unrecognized_string; assumption.
Qed.

(** X13.  The derivative operation returns an array exactly when the model
    has a forcing function and the length of the state is a multiple of 3. *)
Theorem X13_returns_iff
    (s : state) (X : loc) (xs : list R) (t : R) :
  arrays s !! X = Some xs ->
  (exists ds, output (_equation X t s) = inr ds) <->
  (F (attrs s) <> None /\ (length xs mod 3 = 0)%nat).
Proof.
  intros HX. split.
  - intros [ds Hds]. destruct (F (attrs s)) as [f|] eqn:HF.
    + split; [discriminate|].
      destruct (Nat.eq_dec (length xs mod 3) 0%nat) as [Hmod|Hmod];
        [exact Hmod|].
      rewrite (output_raises _ _ (_equation_bad_length s X f t HF xs HX Hmod))
        in Hds.
      discriminate.
    + destruct (_equation_no_forcing s X t HF) as [err Herr].
      rewrite (output_raises _ _ Herr) in Hds. discriminate.
  - intros [HF Hmod]. destruct (F (attrs s)) as [f|] eqn:HF'; [|contradiction].
    assert (Hq : length xs = (3 * (length xs / 3))%nat).
    { pose proof (Nat.div_mod_eq (length xs) 3). lia. }
    eexists. apply (output_run s X xs f t _ HX HF' Hq).
Qed.

Lemma X13_returns_iff_witness :
  exists ds,
    output (_equation 0%nat 0 (store_of default_model [1; 2; 3])) = inr ds.
Proof.
  apply (X13_returns_iff (store_of default_model [1; 2; 3]) 0%nat [1; 2; 3] 0
           eq_refl).
  split; [discriminate | reflexivity].
Defined.

(** ** Calls one after the other *)

(** X14.  Two calls in a row on the same input: the second call returns a
    location other than the first, leaves the array returned by the first
    call and the input as they were, and gives the same contents when the
    forcing has the same value at the two times.  The array returned by the
    first call is itself accepted as a state by a further call. *)
Theorem X14_calls_in_sequence
    (s : state) (X : loc) (xs : list R) (f : R -> R) (t t' : R) (q : nat) :
  arrays s !! X = Some xs ->
  F (attrs s) = Some f ->
  length xs = (3 * q)%nat ->
  exists (d1 d2 : loc) (s1 s2 : state) (ds1 ds2 : list R),
    _equation X t s = (s1, inr d1) /\
    _equation X t' s1 = (s2, inr d2) /\
    d2 <> d1 /\
    arrays s1 !! d1 = Some ds1 /\
    arrays s2 !! d1 = Some ds1 /\
    arrays s2 !! d2 = Some ds2 /\
    arrays s2 !! X = Some xs /\
    (f t = f t' -> ds2 = ds1) /\
    exists ds3,
      output (_equation d1 t' s1) = inr ds3 /\ length ds3 = length xs.
Proof.
  intros HX HF Hl.
  set (ds1 := orbitwise (attrs s) (f t) xs).
  set (s1 := snoc_array s ds1).
  assert (HX1 : arrays s1 !! X = Some xs) by apply lookup_snoc_array, HX.
  assert (HF1 : F (attrs s1) = Some f) by exact HF.
  assert (Hd1 : arrays s1 !! length (arrays s) = Some ds1)
    by (apply list_lookup_middle; reflexivity).
  assert (Hl1 : length ds1 = (3 * q)%nat)
    by (unfold ds1; rewrite (orbitwise_length _ _ q) by exact Hl; exact Hl).
  exists (length (arrays s)), (length (arrays s1)), s1,
    (snoc_array s1 (orbitwise (attrs s1) (f t') xs)), ds1,
    (orbitwise (attrs s1) (f t') xs).
  split; [apply (_equation_run s X xs f t q HX HF Hl)|].
  split; [apply (_equation_run s1 X xs f t' q HX1 HF1 Hl)|].
  split; [unfold s1; cbn [snoc_array arrays]; rewrite length_app; cbn; lia|].
  split; [exact Hd1|].
  split; [apply lookup_snoc_array, Hd1|].
  split; [apply list_lookup_middle; reflexivity|].
  split; [apply lookup_snoc_array, HX1|].
  split; [intros Hf; unfold ds1, s1; cbn [snoc_array attrs]; rewrite Hf;
          reflexivity|].
  exists (orbitwise (attrs s1) (f t') ds1).
  split; [apply (output_run s1 _ ds1 f t' q Hd1 HF1 Hl1)|].
  rewrite (orbitwise_length _ _ q) by exact Hl1. lia.
Qed.

Lemma X14_calls_in_sequence_witness :
  exists (d1 d2 : loc) (s1 s2 : state),
    _equation 0%nat 0 (store_of default_model [1; 2; 3]) = (s1, inr d1) /\
    _equation 0%nat 1 s1 = (s2, inr d2) /\
    d2 <> d1 /\
    arrays s2 !! 0%nat = Some [1; 2; 3].
Proof.
  destruct (X14_calls_in_sequence (store_of default_model [1; 2; 3]) 0%nat
              [1; 2; 3] TimeForcing.constant 0 1 1 eq_refl eq_refl eq_refl)
    as (d1 & d2 & s1 & s2 & ds1 & ds2 & H1 & H2 & Hne & _ & _ & _ & HX & _).
  exists d1, d2, s1, s2. repeat split; assumption.
Defined.

(** ** The store after a call that raises *)

Lemma allocated_one_setitem s0 n k v s :
  allocated_one s0 n s ->
  allocated_one s0 n (setitem (length (arrays s0)) k v s).1.
Proof.
  intros [Ha (ds & Hds & Hn)]. unfold setitem. rewrite Hds.
  rewrite list_lookup_middle by reflexivity.
  destruct (np.fit (length (np.strided 3 k ds)) v) as [err|vs].
  - split; [exact Ha|]. exists ds. split; [exact Hds | exact Hn].
  - split; [exact Ha|]. cbn [arrays fst].
    exists (np.assign_strided 3 k ds vs). split.
    + replace (length (arrays s0)) with (length (arrays s0) + 0)%nat at 1
        by lia.
      rewrite insert_app_r. reflexivity.
    + rewrite assign_strided_length. exact Hn.
Qed.

Lemma allocated_one_assign s0 n k e s :
  stateless e ->
  allocated_one s0 n s ->
  allocated_one s0 n (assign (length (arrays s0)) k e s).1.
Proof.
  intros He Hs. unfold assign, bind. specialize (He s).
  destruct (e s) as [s' [err|v]]; cbn in He; subst s'; [exact Hs|].
  apply allocated_one_setitem, Hs.
Qed.

Lemma allocated_one_then {A} s0 n k e (K : M A) s :
  stateless e ->
  (forall s', allocated_one s0 n s' -> allocated_one s0 n (K s').1) ->
  allocated_one s0 n s ->
  allocated_one s0 n ((assign (length (arrays s0)) k e ;; K)%py s).1.
Proof.
  intros He HK Hs. pose proof (allocated_one_assign s0 n k e s He Hs) as H.
  unfold bind at 1.
  destruct (assign (length (arrays s0)) k e s) as [s' [err|u]];
    [exact H | apply HK, H].
Qed.

(** Whatever the outcome of a call, returned array or exception, the
    store afterwards is the store before, with its attributes and arrays
    unchanged, followed by exactly one new array of the length of the input:
    the array that [np.zeros] allocated before anything else was computed. *)
Lemma _equation_allocates_one
    (s : state) (X : loc) (xs : list R) (t : R) :
  arrays s !! X = Some xs ->
  attrs (_equation X t s).1 = attrs s /\
  exists ds,
    arrays (_equation X t s).1 = arrays s ++ [ds] /\
    length ds = length xs.
Proof.
  intros HX. change (allocated_one s (length xs) (_equation X t s).1).
  rewrite _equation_unfold.
  unfold bind at 1. rewrite (shape_run s X xs HX).
  unfold bind at 1. rewrite zeros_run.
  apply allocated_one_then; [apply stateless_expr_x| |].
  - intros s1 H1. apply allocated_one_then; [apply stateless_expr_y| |exact H1].
    intros s2 H2. apply allocated_one_then; [apply stateless_expr_z| |exact H2].
    intros s3 H3. exact H3.
  - split; [reflexivity|]. exists (replicate (length xs) 0).
    split; [reflexivity | apply length_replicate].
Qed.

(** X15.  With [a = 0] the forcing drops out of the derivative: for every
    orbit [dx = -y^2 - z^2], which is never positive, whatever the forcing
    function and the time. *)
Theorem X15_a_zero_removes_forcing
    (s : state) (X : loc) (xs : list R) (f : R -> R) (t : R) (q : nat) :
  a (attrs s) = 0 ->
  arrays s !! X = Some xs ->
  F (attrs s) = Some f ->
  length xs = (3 * q)%nat ->
  exists ds,
    output (_equation X t s) = inr ds /\
    forall i, (i < q)%nat ->
      exists y z dx,
        xs !! (3 * i + 1)%nat = Some y /\
        xs !! (3 * i + 2)%nat = Some z /\
        ds !! (3 * i)%nat = Some dx /\
        dx = - y ^ 2 - z ^ 2 /\
        dx <= 0.
Proof.
  intros Ha HX HF Hl. eexists.
  split; [apply (output_run s X xs f t q HX HF Hl)|].
  intros i Hi.
  destruct (lookup_orbit xs q i Hl Hi) as (x & y & z & Hx & Hy & Hz).
  destruct (orbitwise_lookup (attrs s) (f t) i xs x y z Hx Hy Hz)
    as (Hdx & _).
  exists y, z, (- y ^ 2 - z ^ 2 - a (attrs s) * x + a (attrs s) * f t).
  repeat (split; [assumption|]). rewrite Ha.
  split; [ring|]. nra.
Qed.

Lemma X15_a_zero_removes_forcing_witness :
  exists ds,
    output (_equation 0%nat 0
              (store_of (__init__ 0 default_b default_G PyNone 1) [1; 2; 3]))
    = inr ds /\
    exists dx, ds !! 0%nat = Some dx /\ dx <= 0.
Proof.
  destruct (X15_a_zero_removes_forcing
              (store_of (__init__ 0 default_b default_G PyNone 1) [1; 2; 3])
              0%nat [1; 2; 3] TimeForcing.constant 0 1
              eq_refl eq_refl eq_refl eq_refl) as (ds & Hout & Hi).
  destruct (Hi 0%nat ltac:(lia)) as (y & z & dx & _ & _ & Hdx & _ & Hle).
  exists ds. split; [exact Hout|]. exists dx. split; assumption.
Defined.
